(** * Verification of the autonomous-coding agent utilities

    Two parts:
    - [Progress]: a shallow embedding of [progress.py] (feature-file
      counting by [@passing] / [@failing] tags);
    - [Security]: the bash command policy gate exercised by
      [test_security.py].

    Python strings are embedded as [string]; a character is a code point
    below 256.  *)

From Stdlib Require Import Strings.String Strings.Ascii.
From Stdlib Require Import Lists.List Bool.Bool Arith.Arith Arith.PeanoNat.
From Stdlib Require Import micromega.Lia.
From Stdlib Require Import ZArith.ZArith Sorting.Permutation.
From Stdlib Require Import Numbers.DecimalString Numbers.DecimalZ.
Import ListNotations.

Open Scope string_scope.
Open Scope list_scope.

(** ** Python string primitives shared by both parts *)

Module PyStr.

(** [str.isspace] on one character, for code points below 256:
    TAB..CR, FS..US, SPACE, NEL and NBSP. *)
Definition is_space (c : ascii) : bool :=
  let n := nat_of_ascii c in
  ((9 <=? n)%nat && (n <=? 13)%nat) || ((28 <=? n)%nat && (n <=? 32)%nat)
  || (n =? 133)%nat || (n =? 160)%nat.

(** [s.lstrip()] *)
Fixpoint lstrip (s : string) : string :=
  match s with
  | EmptyString => EmptyString
  | String c s' => if is_space c then lstrip s' else s
  end.

(** [s.rstrip()] *)
Fixpoint rstrip (s : string) : string :=
  match s with
  | EmptyString => EmptyString
  | String c s' =>
      match rstrip s' with
      | EmptyString => if is_space c then EmptyString else String c EmptyString
      | r => String c r
      end
  end.

(** [s.strip()] *)
Definition strip (s : string) : string := rstrip (lstrip s).

(** [s.startswith(p)] *)
Fixpoint startswith (s p : string) {struct p} : bool :=
  match p with
  | EmptyString => true
  | String a p' =>
      match s with
      | EmptyString => false
      | String b s' => Ascii.eqb a b && startswith s' p'
      end
  end.

(** [s.endswith(p)] *)
Fixpoint endswith (s p : string) : bool :=
  String.eqb s p ||
  match s with
  | EmptyString => false
  | String _ s' => endswith s' p
  end.

(** [p in s] for strings *)
Fixpoint contains (s p : string) : bool :=
  startswith s p ||
  match s with
  | EmptyString => false
  | String _ s' => contains s' p
  end.

(** truthiness of a string: [bool(s)] *)
Definition nonempty (s : string) : bool :=
  match s with
  | EmptyString => false
  | String _ _ => true
  end.

(** every character of [s] satisfies [p] *)
Fixpoint all_chars (p : ascii -> bool) (s : string) : bool :=
  match s with
  | EmptyString => true
  | String c s' => p c && all_chars p s'
  end.

(** [x in xs] for a collection of strings *)
Definition mem (x : string) (xs : list string) : bool :=
  existsb (String.eqb x) xs.

End PyStr.

(** ** progress.py *)

Module Progress.
Import PyStr.

(** What [open(feature_file)] followed by [for line in f] presents: either
    [open] raises [IOError], or the lines come one by one and the iteration
    ends at end of file or by raising [IOError] / [UnicodeDecodeError]. *)
Inductive file_read : Type :=
| OpenRaises
| Yields (lines : list string) (raises_after : bool).

(** A project directory: its entries by name. *)
Definition project_dir : Type := list (string * file_read).

(** [project_dir.glob("gherkin.feature_*.feature")] on a file name. *)
Definition glob_prefix : string := "gherkin.feature_".
Definition glob_suffix : string := ".feature".

Definition matches_glob (name : string) : bool :=
  startswith name glob_prefix
  && endswith (substring (String.length glob_prefix)
                         (String.length name - String.length glob_prefix)
                         name)
              glob_suffix.

Definition glob (d : project_dir) : list (string * file_read) :=
  filter (fun e => matches_glob (fst e)) d.

(** How the body of the [try] block leaves: by [break] after counting, by
    [break] without counting, by exhausting the file, or by an exception
    that the [except] clause catches. *)
Inductive scan_exit : Type :=
| Counted
| Broke
| Exhausted
| Raised.

(** The inner [for line in f] loop of [count_passing_tests]. *)
Fixpoint scan_passing_lines (lines : list string) (raises_after : bool)
  : scan_exit :=
  match lines with
  | [] => if raises_after then Raised else Exhausted
  | l :: rest =>
      let line := strip l in
      if startswith line "@passing" then Counted
      else if startswith line "@failing" then Broke
      else if nonempty line && negb (startswith line "#") then Broke
      else scan_passing_lines rest raises_after
  end.

(** The inner [for line in f] loop of [count_failing_features]. *)
Fixpoint scan_failing_lines (lines : list string) (raises_after : bool)
  : scan_exit :=
  match lines with
  | [] => if raises_after then Raised else Exhausted
  | l :: rest =>
      let line := strip l in
      if startswith line "@failing" then Counted
      else if startswith line "@passing" then Broke
      else if nonempty line && negb (startswith line "#") then Broke
      else scan_failing_lines rest raises_after
  end.

Definition scan_passing (f : file_read) : scan_exit :=
  match f with
  | OpenRaises => Raised
  | Yields lines e => scan_passing_lines lines e
  end.

Definition scan_failing (f : file_read) : scan_exit :=
  match f with
  | OpenRaises => Raised
  | Yields lines e => scan_failing_lines lines e
  end.

(** One iteration of the outer loop: the counter after the file. *)
Definition bump (x : scan_exit) (counter : nat) : nat :=
  match x with
  | Counted => S counter
  | _ => counter
  end.

Definition count_passing_tests (d : project_dir) : nat * nat :=
  let feature_files := glob d in
  match feature_files with
  | [] => (0, 0)
  | _ =>
      let total := List.length feature_files in
      let passing :=
        fold_left (fun passing e => bump (scan_passing (snd e)) passing)
                  feature_files 0 in
      (passing, total)
  end.

Definition count_failing_features (d : project_dir) : nat :=
  let feature_files := glob d in
  match feature_files with
  | [] => 0
  | _ =>
      fold_left (fun failing e => bump (scan_failing (snd e)) failing)
                feature_files 0
  end.

(** *** Declarative reading of a feature file *)

(** A content line: non-empty after stripping and not a [#] comment. *)
Definition is_content (l : string) : bool :=
  nonempty (strip l) && negb (startswith (strip l) "#").

(** The first content line among the lines the file yields. *)
Definition first_content_line (f : file_read) : option string :=
  match f with
  | OpenRaises => None
  | Yields lines _ => find is_content lines
  end.

(** The tag test on the first content line of a file. *)
Definition first_content_is_passing (f : file_read) : bool :=
  match first_content_line f with
  | Some l => startswith (strip l) "@passing"
  | None => false
  end.

(** The file raises while [count_passing_tests] reads it. *)
Definition raises_on_read (f : file_read) : bool :=
  match scan_passing f with
  | Raised => true
  | _ => false
  end.

Definition is_counted (x : scan_exit) : bool :=
  match x with
  | Counted => true
  | _ => false
  end.

(** The tag test for [@failing] on the first content line of a file. *)
Definition first_content_is_failing (f : file_read) : bool :=
  match first_content_line f with
  | Some l => startswith (strip l) "@failing"
  | None => false
  end.

(** A file that yields no content line, or whose first content line starts
    with neither tag. *)
Definition is_untagged (f : file_read) : bool :=
  negb (first_content_is_passing f) && negb (first_content_is_failing f).

(** [l'] is [l] with whitespace added before and after it. *)
Definition padded (l l' : string) : Prop :=
  exists before after,
    all_chars is_space before = true
    /\ all_chars is_space after = true
    /\ l' = (before ++ l ++ after)%string.

(** *** Printing *)

(** [str(n)] for an integer. *)
Definition py_str (n : Z) : string := NilZero.string_of_int (Z.to_int n).

(** A text without a colon. *)
Definition no_colon (s : string) : bool :=
  all_chars (fun c => negb (Ascii.eqb c ":")) s.

(** [s * n] for a string and a count. *)
Fixpoint str_mul (s : string) (n : nat) : string :=
  match n with
  | O => EmptyString
  | S n' => (s ++ str_mul s n')%string
  end.

(** [print_session_header]: the arguments of its four [print] calls, in
    order; [print] ends each with a newline. *)
Definition print_session_header (session_num : Z) (is_initializer : bool)
  : list string :=
  let session_type :=
    if is_initializer then "INITIALIZER" else "CODING AGENT" in
  [(String (ascii_of_nat 10) (str_mul "=" 70));
   ("  SESSION " ++ py_str session_num ++ ": " ++ session_type)%string;
   str_mul "=" 70;
   EmptyString].

(** How a procedure that prints ends: it returns, having made these [print]
    calls, or it raises. *)
Inductive exn : Type := ZeroDivisionError.

Inductive printed : Type :=
| Returns (calls : list string)
| Raises (e : exn).

(** [a / b] on integers: the exact quotient as a fraction, or
    [ZeroDivisionError]. *)
Definition truediv (a b : nat) : option (nat * nat) :=
  if (b =? 0)%nat then None else Some (a, b).

Definition no_features_line : string :=
  String (ascii_of_nat 10) "Progress: No feature files created yet".

Section Summary.

(** The text of [(q * 100):.1f] for the quotient [q]: it is computed in
    floating point, and is a parameter here. *)
Variable format_percentage : nat * nat -> string.

Definition progress_line (passing total : nat) (q : nat * nat) : string :=
  (String (ascii_of_nat 10) "Progress: "
   ++ py_str (Z.of_nat passing) ++ "/" ++ py_str (Z.of_nat total)
   ++ " feature files passing (" ++ format_percentage q ++ "%)")%string.

Definition print_progress_summary (d : project_dir) : printed :=
  let '(passing, total) := count_passing_tests d in
  if (0 <? total)%nat then
    match truediv passing total with
    | None => Raises ZeroDivisionError
    | Some q => Returns [progress_line passing total q]
    end
  else Returns [no_features_line].

End Summary.

End Progress.

(** ** The bash command policy gate *)

Module Security.
Import PyStr.

(** *** Data model *)

Inductive Verdict : Type := Allow | Block.

Record Decision : Type := { verdict : Verdict; reason : string }.

Definition allow : Decision := {| verdict := Allow; reason := "" |}.
Definition block (why : string) : Decision :=
  {| verdict := Block; reason := why |}.

(** Modelled from the spec: the process-wide read-only PolicyConfig (the
    security module is not among the sources): the program allowlist set and
    the pkill target allowlist set. *)
Record PolicyConfig : Type :=
  { allowed_programs : list string;
    dev_processes : list string }.

(** Modelled from the spec: the contents of the two tables, which the spec
    only illustrates; the names are those the test suite requires to be
    allowed. *)
Definition default_policy : PolicyConfig :=
  {| allowed_programs :=
       ["ls"; "cat"; "head"; "tail"; "wc"; "grep";
        "cp"; "mkdir"; "pwd"; "npm"; "node"; "git";
        "ps"; "lsof"; "sleep"];
     dev_processes := ["node"; "npm"; "vite"] |}.

(** The command field of a request's tool input. *)
Inductive command_field : Type :=
| Missing
| NotAString
| Text (raw : string).

Record request : Type :=
  { tool_name : string; command : command_field }.

Definition bash_request (raw : string) : request :=
  {| tool_name := "Bash"; command := Text raw |}.

(** *** CommandSplitter *)

Definition squote : ascii := ascii_of_nat 39.
Definition dquote : ascii := ascii_of_nat 34.

Definition is_quote (c : ascii) : bool :=
  Ascii.eqb c squote || Ascii.eqb c dquote.

Definition snoc (s : string) (c : ascii) : string :=
  s ++ String c EmptyString.

(** Modelled from the spec: the left-to-right scan of CommandSplitter.
    [q] is the quote-balance tracker (the quote character that is open, if
    any), [cur] the segment read so far. *)
Fixpoint split_from (q : option ascii) (cur : string) (s : string)
  {struct s} : list string :=
  match s with
  | EmptyString => [cur]
  | String c s' =>
      match q with
      | Some q0 =>
          split_from (if Ascii.eqb c q0 then None else q) (snoc cur c) s'
      | None =>
          if is_quote c then split_from (Some c) (snoc cur c) s'
          else if Ascii.eqb c ";" then cur :: split_from None "" s'
          else if Ascii.eqb c "|" then
            match s' with
            | String c2 s'' =>
                if Ascii.eqb c2 "|" then cur :: split_from None "" s''
                else cur :: split_from None "" s'
            | EmptyString => cur :: split_from None "" s'
            end
          else if Ascii.eqb c "&" then
            match s' with
            | String c2 s'' =>
                if Ascii.eqb c2 "&" then cur :: split_from None "" s''
                else split_from None (snoc cur c) s'
            | EmptyString => split_from None (snoc cur c) s'
            end
          else split_from None (snoc cur c) s'
      end
  end.

(** Modelled from the spec: CommandSplitter; segments are trimmed, and empty
    or whitespace-only segments are discarded. *)
Definition split_commands (raw : string) : list string :=
  filter nonempty (map strip (split_from None "" raw)).

(** *** InvocationExtractor *)

Definition flush (cur : string) : list string :=
  if nonempty cur then [cur] else [].

(** Modelled from the spec: tokenization on whitespace. *)
Fixpoint tokenize_from (cur : string) (s : string) : list string :=
  match s with
  | EmptyString => flush cur
  | String c s' =>
      if is_space c then flush cur ++ tokenize_from "" s'
      else tokenize_from (snoc cur c) s'
  end.

Definition tokenize (s : string) : list string := tokenize_from "" s.

Definition is_letter (c : ascii) : bool :=
  let n := nat_of_ascii c in
  ((65 <=? n)%nat && (n <=? 90)%nat) || ((97 <=? n)%nat && (n <=? 122)%nat).

Definition is_digit (c : ascii) : bool :=
  let n := nat_of_ascii c in (48 <=? n)%nat && (n <=? 57)%nat.

Definition is_ident_start (c : ascii) : bool :=
  is_letter c || Ascii.eqb c "_".

Definition is_ident_char (c : ascii) : bool :=
  is_ident_start c || is_digit c.

(** The rest of a token after the first character of an identifier:
    identifier characters up to an [=]. *)
Fixpoint ident_then_equals (s : string) : bool :=
  match s with
  | EmptyString => false
  | String c s' =>
      Ascii.eqb c "=" || (is_ident_char c && ident_then_equals s')
  end.

(** Modelled from the spec: a token of the shape IDENTIFIER=VALUE. *)
Definition is_env_assignment (tok : string) : bool :=
  match tok with
  | EmptyString => false
  | String c s' => is_ident_start c && ident_then_equals s'
  end.



Fixpoint strip_env_prefix (toks : list string) : list string :=
  match toks with
  | [] => []
  | t :: rest => if is_env_assignment t then strip_env_prefix rest else toks
  end.

(** Modelled from the spec: the final path segment, what follows the last
    [/]. *)
Fixpoint basename_from (cur : string) (s : string) : string :=
  match s with
  | EmptyString => cur
  | String c s' =>
      if Ascii.eqb c "/" then basename_from "" s'
      else basename_from (snoc cur c) s'
  end.

Definition basename (tok : string) : string := basename_from "" tok.

Record Invocation : Type :=
  { program_token : string;
    base_name : string;
    args : list string }.

(** Modelled from the spec: InvocationExtractor. *)
Definition extract_invocation (sub : string) : option Invocation :=
  match strip_env_prefix (tokenize sub) with
  | [] => None
  | p :: rest =>
      Some {| program_token := p; base_name := basename p; args := rest |}
  end.

(** Modelled from the spec: [extract_commands] of the security module, the
    program sequence of a raw command. *)
Definition extract_commands (raw : string) : list string :=
  flat_map (fun sub =>
              match extract_invocation sub with
              | Some inv => [base_name inv]
              | None => []
              end)
           (split_commands raw).

(** *** ChmodValidator *)

Definition is_flag (tok : string) : bool := startswith tok "-".

Definition is_recursive_flag (tok : string) : bool :=
  String.eqb tok "-R" || String.eqb tok "--recursive".

Definition is_subject (c : ascii) : bool :=
  Ascii.eqb c "u" || Ascii.eqb c "g" || Ascii.eqb c "o" || Ascii.eqb c "a".

(** Modelled from the spec: the mode grammar, subjects from u, g, o, a
    followed by the literal [+x]. *)
Fixpoint is_exec_mode (tok : string) : bool :=
  String.eqb tok "+x" ||
  match tok with
  | EmptyString => false
  | String c s' => is_subject c && is_exec_mode s'
  end.

Definition is_target (tok : string) : bool :=
  negb (is_flag tok) && negb (is_exec_mode tok).

Definition reason_recursive : string := "recursive chmod not allowed".
Definition reason_mode : string := "disallowed chmod mode".
Definition reason_target : string := "missing target file".

(** Modelled from the spec: ChmodValidator on the argument tokens. *)
Definition validate_chmod_args (arguments : list string) : bool * string :=
  if existsb is_recursive_flag arguments then (false, reason_recursive)
  else
    match filter is_exec_mode arguments with
    | [_] =>
        match filter is_target arguments with
        | [] => (false, reason_target)
        | _ :: _ => (true, "")
        end
    | _ => (false, reason_mode)
    end.

Definition reason_no_command : string := "no command found".

(** Modelled from the spec: [validate_chmod_command] of the security module,
    which the tests call on the text of a chmod sub-command. *)
Definition validate_chmod_command (sub : string) : bool * string :=
  match extract_invocation sub with
  | None => (false, reason_no_command)
  | Some inv => validate_chmod_args (args inv)
  end.

(** *** InitScriptValidator *)

Definition init_name : string := "init.sh".

(** Modelled from the spec: a path (it has a separator) whose final segment
    is exactly init.sh. *)
Definition is_direct_init_path (tok : string) : bool :=
  contains tok "/" && String.eqb (basename tok) init_name.

Definition mentions_init (toks : list string) : bool :=
  existsb (fun t => endswith t init_name) toks.

Definition reason_interpreter : string :=
  "init.sh must be executed directly, not via an interpreter".
Definition reason_not_init : string := "script not init.sh".

(** Modelled from the spec: [validate_init_script] of the security module. *)
Definition validate_init_script (sub : string) : bool * string :=
  match strip_env_prefix (tokenize sub) with
  | [] => (false, reason_no_command)
  | p :: rest =>
      if is_direct_init_path p then (true, "")
      else if mentions_init (p :: rest) then (false, reason_interpreter)
      else (false, reason_not_init)
  end.

(** *** PkillPolicy *)

Definition reason_pkill : string :=
  "process termination target not in dev-process allowlist".

(** Modelled from the spec: the target pattern, the arguments left once the
    [-f] token and the other flag tokens are discarded. *)
Definition pkill_target (arguments : list string) : string :=
  String.concat " "
    (filter (fun t => negb (is_flag t))
            (filter (fun t => negb (String.eqb t "-f")) arguments)).

(** Modelled from the spec: PkillPolicy on the argument tokens. *)
Definition validate_pkill (cfg : PolicyConfig) (arguments : list string)
  : bool * string :=
  if existsb (contains (pkill_target arguments)) (dev_processes cfg)
  then (true, "")
  else (false, reason_pkill).

(** *** AllowlistPolicy *)

(** Modelled from the spec: exact membership of the base name in the
    program allowlist. *)

Definition is_allowed (cfg : PolicyConfig) (base : string) : bool :=
  mem base (allowed_programs cfg).

(** *** HookDecisionEngine *)

Inductive ValidatorKind : Type := Chmod | InitScript | Pkill | Generic.

(** Modelled from the spec: the dispatch order of the control flow.  The
    test suite requires [killall node] to be blocked as a program that is
    not in the allowlist, so [killall] is dispatched to the allowlist. *)
Definition validator_kind (inv : Invocation) : ValidatorKind :=
  if String.eqb (base_name inv) "chmod" then Chmod
  else if mentions_init (program_token inv :: args inv) then InitScript
  else if String.eqb (base_name inv) "pkill" then Pkill
  else Generic.

Definition of_validation (r : bool * string) : Decision :=
  if fst r then allow else block (snd r).

(** Modelled from the spec: the decision one sub-command contributes, by
    the validator that applies to it (the security module is not among the
    sources). *)
Definition decide_sub (cfg : PolicyConfig) (sub : string) : Decision :=
  match extract_invocation sub with
  | None => block reason_no_command
  | Some inv =>
      if negb (nonempty (base_name inv)) then block reason_no_command
      else
        match validator_kind inv with
        | Chmod => of_validation (validate_chmod_args (args inv))
        | InitScript => of_validation (validate_init_script sub)
        | Pkill => of_validation (validate_pkill cfg (args inv))
        | Generic =>
            if is_allowed cfg (base_name inv) then allow
            else block (base_name inv ++ " not allowed")
        end
  end.

(** What leaves a sub-command without a program. *)
Definition no_program (sub : string) : Prop :=
  extract_invocation sub = None
  \/ exists inv, extract_invocation sub = Some inv /\ base_name inv = "".

(** Modelled from the spec: the logical AND over the sub-commands, which
    short-circuits at the first BLOCK. *)
Fixpoint decide_all (cfg : PolicyConfig) (subs : list string) : Decision :=
  match subs with
  | [] => allow
  | sub :: rest =>
      let d := decide_sub cfg sub in
      match verdict d with
      | Block => d
      | Allow => decide_all cfg rest
      end
  end.

Definition reason_malformed : string :=
  "malformed request: command is missing or not a string".

(** Modelled from the spec: [bash_security_hook], the decision engine. *)
Definition bash_security_hook (cfg : PolicyConfig) (req : request)
  : Decision :=
  if negb (String.eqb (tool_name req) "Bash") then allow
  else
    match command req with
    | Missing | NotAString => block reason_malformed
    | Text raw =>
        match split_commands raw with
        | [] => block reason_no_command
        | subs => decide_all cfg subs
        end
    end.



(** *** Composite commands as text *)

Inductive operator : Type := AndAnd | OrOr | Pipe | Semi.

Definition operator_text (o : operator) : string :=
  match o with
  | AndAnd => "&&"
  | OrOr => "||"
  | Pipe => "|"
  | Semi => ";"
  end.

(** [first o1 s1 o2 s2 ...]: the sub-commands joined by the operators. *)
Fixpoint compose (first : string) (rest : list (operator * string))
  : string :=
  match rest with
  | [] => first
  | (o, s) :: rest' => first ++ operator_text o ++ compose s rest'
  end.

Definition is_operator_char (c : ascii) : bool :=
  Ascii.eqb c ";" || Ascii.eqb c "|" || Ascii.eqb c "&".

(** A piece of text that holds no operator character outside quotes and
    closes every quote it opens. *)
Fixpoint plain_from (q : option ascii) (s : string) : bool :=
  match s with
  | EmptyString =>
      match q with
      | None => true
      | Some _ => false
      end
  | String c s' =>
      match q with
      | Some q0 => plain_from (if Ascii.eqb c q0 then None else q) s'
      | None =>
          if is_quote c then plain_from (Some c) s'
          else negb (is_operator_char c) && plain_from None s'
      end
  end.

Definition plain (s : string) : bool := plain_from None s.

(** A text between double quotes. *)
Definition quoted (s : string) : string :=
  (String dquote s ++ String dquote EmptyString)%string.

(** The segments that survive trimming. *)
Definition kept (segments : list string) : list string :=
  filter nonempty (map strip segments).

Definition keep1 (segment : string) : list string :=
  if nonempty (strip segment) then [strip segment] else [].

End Security.

Import PyStr Progress Security.

(** * Properties of progress.py *)

Section ProgressFacts.

(** A line that starts with a tag is a content line: it is not empty and
    does not start with [#]. *)
Lemma tag_line_is_content (line tag' : string) (c : ascii) :
  c <> "#"%char ->
  startswith line (String c tag') = true ->
  nonempty line = true /\ startswith line "#" = false.
Proof.
  intros Hc H.
  destruct line as [|a line']; cbn [startswith] in H; [discriminate|].
  split; [reflexivity|].
  apply andb_prop in H. destruct H as [H _].
  apply Ascii.eqb_eq in H. subst a.
  cbn [startswith]. apply andb_false_intro1.
  apply Ascii.eqb_neq. congruence.
Qed.

Lemma passing_line_is_content (line : string) :
  startswith line "@passing" = true ->
  nonempty line = true /\ startswith line "#" = false.
Proof. apply tag_line_is_content. discriminate. Qed.

Lemma failing_line_is_content (line : string) :
  startswith line "@failing" = true ->
  nonempty line = true /\ startswith line "#" = false.
Proof. apply tag_line_is_content. discriminate. Qed.

(** No line carries both tags. *)
Lemma tags_exclusive (line : string) :
  startswith line "@passing" = true ->
  startswith line "@failing" = true -> False.
Proof.
  intros Hp Hf.
  destruct line as [|a [|b line'']]; cbn [startswith] in *;
    try discriminate.
  - rewrite andb_false_r in Hp. discriminate.
  - apply andb_prop in Hp. destruct Hp as [_ Hp].
    apply andb_prop in Hp. destruct Hp as [Hp _].
    apply andb_prop in Hf. destruct Hf as [_ Hf].
    apply andb_prop in Hf. destruct Hf as [Hf _].
    apply Ascii.eqb_eq in Hp, Hf. congruence.
Qed.

(** The passing scan is decided by the first content line. *)
Lemma scan_passing_lines_counted (lines : list string) (e : bool) :
  scan_passing_lines lines e = Counted <->
  exists l, find is_content lines = Some l
            /\ startswith (strip l) "@passing" = true.
Proof.
  induction lines as [|l rest IH];
    cbn [scan_passing_lines scan_failing_lines find].
  - split; [destruct e; discriminate | intros [l [H _]]; discriminate].
  - unfold is_content at 1.
    destruct (startswith (strip l) "@passing") eqn:Hp.
    + destruct (passing_line_is_content _ Hp) as [-> ->]. cbn [andb negb].
      split; [intros _; exists l; auto | reflexivity].
    + destruct (startswith (strip l) "@failing") eqn:Hf.
      * destruct (failing_line_is_content _ Hf) as [-> ->]. cbn [andb negb].
        split; [discriminate|].
        intros [l' [H1 H2]]. injection H1 as <-. congruence.
      * destruct (nonempty (strip l) && negb (startswith (strip l) "#")).
        -- split; [discriminate|].
           intros [l' [H1 H2]]. injection H1 as <-. congruence.
        -- exact IH.
Qed.

(** The failing scan is decided by the first content line. *)
Lemma scan_failing_lines_counted (lines : list string) (e : bool) :
  scan_failing_lines lines e = Counted <->
  exists l, find is_content lines = Some l
            /\ startswith (strip l) "@failing" = true.
Proof.
  induction lines as [|l rest IH];
    cbn [scan_passing_lines scan_failing_lines find].
  - split; [destruct e; discriminate | intros [l [H _]]; discriminate].
  - unfold is_content at 1.
    destruct (startswith (strip l) "@failing") eqn:Hf.
    + destruct (failing_line_is_content _ Hf) as [-> ->]. cbn [andb negb].
      split; [intros _; exists l; auto | reflexivity].
    + destruct (startswith (strip l) "@passing") eqn:Hp.
      * destruct (passing_line_is_content _ Hp) as [-> ->]. cbn [andb negb].
        split; [discriminate|].
        intros [l' [H1 H2]]. injection H1 as <-. congruence.
      * destruct (nonempty (strip l) && negb (startswith (strip l) "#")).
        -- split; [discriminate|].
           intros [l' [H1 H2]]. injection H1 as <-. congruence.
        -- exact IH.
Qed.

Lemma scan_passing_counted (f : file_read) :
  scan_passing f = Counted <->
  exists l, first_content_line f = Some l
            /\ startswith (strip l) "@passing" = true.
Proof.
  destruct f as [|lines e]; simpl.
  - split; [discriminate | intros [l [H _]]; discriminate].
  - apply scan_passing_lines_counted.
Qed.

Lemma scan_failing_counted (f : file_read) :
  scan_failing f = Counted <->
  exists l, first_content_line f = Some l
            /\ startswith (strip l) "@failing" = true.
Proof.
  destruct f as [|lines e]; simpl.
  - split; [discriminate | intros [l [H _]]; discriminate].
  - apply scan_failing_lines_counted.
Qed.

(** No file is counted by both scans. *)
Lemma scans_exclusive (f : file_read) :
  is_counted (scan_passing f) && is_counted (scan_failing f) = false.
Proof.
  destruct (scan_passing f) eqn:Hp; try reflexivity.
  destruct (scan_failing f) eqn:Hf; try reflexivity.
  apply scan_passing_counted in Hp. apply scan_failing_counted in Hf.
  destruct Hp as [l [H1 H2]]. destruct Hf as [l' [H1' H2']].
  rewrite H1 in H1'. injection H1' as <-.
  destruct (tags_exclusive _ H2 H2').
Qed.

(** The outer loop adds one per counted file. *)
Lemma fold_bump (scan : file_read -> scan_exit)
      (files : list (string * file_read)) (start : nat) :
  fold_left (fun counter e => bump (scan (snd e)) counter) files start
  = start + List.length (filter (fun e => is_counted (scan (snd e))) files).
Proof.
  revert start. induction files as [|e files IH]; intros start; simpl.
  - lia.
  - rewrite IH. destruct (scan (snd e)); simpl; lia.
Qed.

Lemma count_passing_tests_eq (d : project_dir) :
  count_passing_tests d =
  (List.length (filter (fun e => is_counted (scan_passing (snd e))) (glob d)),
   List.length (glob d)).
Proof.
  unfold count_passing_tests. destruct (glob d) as [|e files] eqn:E.
  - reflexivity.
  - rewrite fold_bump. reflexivity.
Qed.

Lemma count_failing_features_eq (d : project_dir) :
  count_failing_features d =
  List.length (filter (fun e => is_counted (scan_failing (snd e))) (glob d)).
Proof.
  unfold count_failing_features. destruct (glob d) as [|e files] eqn:E.
  - reflexivity.
  - rewrite fold_bump. reflexivity.
Qed.

(** Two disjoint selections of a list fit in it together. *)
Lemma disjoint_filters_length {A : Type} (f g : A -> bool) (l : list A) :
  (forall x, f x && g x = false) ->
  List.length (filter f l) + List.length (filter g l) <= List.length l.
Proof.
  intros Hfg. induction l as [|x l IH]; simpl; [lia|].
  specialize (Hfg x). destruct (f x), (g x); simpl in *; try discriminate; lia.
Qed.

End ProgressFacts.

Section ProgressClaims.

Lemma glob_app (d1 d2 : project_dir) : glob (d1 ++ d2) = glob d1 ++ glob d2.
Proof. apply filter_app. Qed.

Lemma raising_not_counted (f : file_read) :
  raises_on_read f = true -> is_counted (scan_passing f) = false.
Proof. unfold raises_on_read. destruct (scan_passing f); easy. Qed.

(** Leading lines that are blank or comments do not change the scan. *)
Lemma scan_passing_skips (pre rest : list string) (e : bool) :
  (forall l, In l pre -> strip l = "" \/ startswith (strip l) "#" = true) ->
  scan_passing_lines (pre ++ rest) e = scan_passing_lines rest e.
Proof.
  induction pre as [|l pre IH]; intros H; [reflexivity|].
  cbn [app scan_passing_lines].
  assert (Hl : strip l = "" \/ startswith (strip l) "#" = true)
    by (apply H; left; reflexivity).
  assert (IH' : scan_passing_lines (pre ++ rest) e = scan_passing_lines rest e)
    by (apply IH; intros l' Hin; apply H; right; exact Hin).
  destruct (startswith (strip l) "@passing") eqn:Hp.
  { destruct (passing_line_is_content _ Hp) as [Hn Hh].
    destruct Hl as [Hl|Hl]; [rewrite Hl in Hn; discriminate | congruence]. }
  destruct (startswith (strip l) "@failing") eqn:Hf.
  { destruct (failing_line_is_content _ Hf) as [Hn Hh].
    destruct Hl as [Hl|Hl]; [rewrite Hl in Hn; discriminate | congruence]. }
  destruct Hl as [Hl|Hl].
  - rewrite Hl. exact IH'.
  - rewrite Hl, andb_false_r. exact IH'.
Qed.

(** C8: [count_passing_tests] returns [(passing, total)] with
    [0 <= passing <= total]; when no file matches the glob it returns
    [(0, 0)]; and a file whose reading raises ([open] fails, or the
    iteration over its lines raises before a [break]) counts toward [total]
    and not toward [passing]: [total] is the number of matching files,
    [passing] fits among the matching files that do not raise, and putting
    a raising file into a directory adds one to [total] and nothing to
    [passing]. *)
Theorem count_passing_tests_bounds (d : project_dir) :
  (0 <= fst (count_passing_tests d) <= snd (count_passing_tests d))
  /\ (glob d = [] -> count_passing_tests d = (0, 0))
  /\ snd (count_passing_tests d) = List.length (glob d)
  /\ fst (count_passing_tests d)
     + List.length (filter (fun e => raises_on_read (snd e)) (glob d))
     <= snd (count_passing_tests d)
  /\ (forall (d1 d2 : project_dir) (name : string) (f : file_read),
         d = d1 ++ d2 ->
         matches_glob name = true ->
         raises_on_read f = true ->
         count_passing_tests (d1 ++ (name, f) :: d2)
         = (fst (count_passing_tests d), S (snd (count_passing_tests d)))).
Proof.
  rewrite count_passing_tests_eq. cbn [fst snd].
  split; [|split; [|split; [|split]]].
  - split; [lia | apply filter_length_le].
  - intros E. rewrite E. reflexivity.
  - reflexivity.
  - apply disjoint_filters_length. intros [name f]. cbn [snd].
    unfold raises_on_read. destruct (scan_passing f); reflexivity.
  - intros d1 d2 name f -> Hm Hr.
    rewrite count_passing_tests_eq. rewrite !glob_app.
    change (glob ((name, f) :: d2))
      with (filter (fun e => matches_glob (fst e)) ((name, f) :: d2)).
    cbn [filter fst]. rewrite Hm. fold (glob d2).
    rewrite !filter_app. cbn [filter snd].
    rewrite (raising_not_counted f Hr).
    rewrite !length_app. cbn [List.length]. f_equal. lia.
Qed.

(** C9: on one directory, [count_passing_tests d = (p, t)] and
    [count_failing_features d = f] satisfy [p + f <= t]; each function
    counts a file exactly when the first stripped non-empty line that does
    not start with [#] starts with its own tag, and no file is counted by
    both. *)
Theorem passing_plus_failing_le_total (d : project_dir) :
  fst (count_passing_tests d) + count_failing_features d
  <= snd (count_passing_tests d)
  /\ (forall f : file_read,
         scan_passing f = Counted <->
         exists l, first_content_line f = Some l
                   /\ startswith (strip l) "@passing" = true)
  /\ (forall f : file_read,
         scan_failing f = Counted <->
         exists l, first_content_line f = Some l
                   /\ startswith (strip l) "@failing" = true)
  /\ (forall f : file_read,
         ~ (scan_passing f = Counted /\ scan_failing f = Counted)).
Proof.
  split; [|split; [|split]].
  - rewrite count_passing_tests_eq, count_failing_features_eq. cbn [fst snd].
    apply disjoint_filters_length. intros e. apply scans_exclusive.
  - apply scan_passing_counted.
  - apply scan_failing_counted.
  - intros f [Hp Hf]. pose proof (scans_exclusive f) as H.
    rewrite Hp, Hf in H. discriminate.
Qed.

(** C10: in [count_passing_tests] a feature file is counted as passing if
    and only if its first line that is non-empty after stripping and does
    not start with [#] starts with [@passing]; blank lines and comment
    lines before the tag are skipped, and a tag that comes after another
    content line is ignored. *)
Theorem passing_iff_first_content_line :
  (forall f : file_read,
      bump (scan_passing f) 0 = 1 <->
      exists l, first_content_line f = Some l
                /\ startswith (strip l) "@passing" = true)
  /\ (forall d : project_dir,
         fst (count_passing_tests d)
         = List.length (filter (fun e => first_content_is_passing (snd e))
                               (glob d)))
  /\ (forall (pre rest : list string) (e : bool),
         (forall l, In l pre ->
                    strip l = "" \/ startswith (strip l) "#" = true) ->
         scan_passing (Yields (pre ++ rest) e)
         = scan_passing (Yields rest e))
  /\ (forall (l : string) (rest : list string) (e : bool),
         is_content l = true ->
         startswith (strip l) "@passing" = false ->
         bump (scan_passing (Yields (l :: rest) e)) 0 = 0).
Proof.
  assert (Hiff : forall f, is_counted (scan_passing f)
                           = first_content_is_passing f).
  { intros f. unfold first_content_is_passing.
    destruct (scan_passing f) eqn:Hs.
    - apply scan_passing_counted in Hs. destruct Hs as [l [-> H]].
      symmetry; exact H.
    - destruct (first_content_line f) as [l|] eqn:Hl; [|reflexivity].
      destruct (startswith (strip l) "@passing") eqn:Hp; [|reflexivity].
      assert (scan_passing f = Counted)
        by (apply scan_passing_counted; exists l; auto). congruence.
    - destruct (first_content_line f) as [l|] eqn:Hl; [|reflexivity].
      destruct (startswith (strip l) "@passing") eqn:Hp; [|reflexivity].
      assert (scan_passing f = Counted)
        by (apply scan_passing_counted; exists l; auto). congruence.
    - destruct (first_content_line f) as [l|] eqn:Hl; [|reflexivity].
      destruct (startswith (strip l) "@passing") eqn:Hp; [|reflexivity].
      assert (scan_passing f = Counted)
        by (apply scan_passing_counted; exists l; auto). congruence. }
  split; [|split; [|split]].
  - intros f. rewrite <- scan_passing_counted.
    destruct (scan_passing f); cbn [bump]; split; congruence.
  - intros d. rewrite count_passing_tests_eq. cbn [fst].
    f_equal. apply filter_ext. intros e. apply Hiff.
  - intros pre rest e H. apply scan_passing_skips. exact H.
  - intros l rest e Hc Hp.
    assert (Hn : is_counted (scan_passing (Yields (l :: rest) e)) = false).
    { rewrite Hiff. unfold first_content_is_passing.
      cbn [first_content_line find]. rewrite Hc. exact Hp. }
    destruct (scan_passing (Yields (l :: rest) e)); easy.
Qed.

(** The bounds at a directory without feature files, and at one that gains
    an unreadable feature file. *)
Lemma count_passing_tests_bounds_witness :
  count_passing_tests [("README.md", Yields ["@passing"] false)] = (0, 0)
  /\ count_passing_tests
       ([("gherkin.feature_001.feature", Yields ["@passing"] false)]
        ++ ("gherkin.feature_002.feature", OpenRaises) :: [])
     = (1, 2).
Proof.
  split.
  - apply (proj1 (proj2 (count_passing_tests_bounds
                           [("README.md", Yields ["@passing"] false)]))).
    reflexivity.
  - apply (proj2 (proj2 (proj2 (proj2
             (count_passing_tests_bounds
                [("gherkin.feature_001.feature",
                  Yields ["@passing"] false)]))))
             [("gherkin.feature_001.feature", Yields ["@passing"] false)]
             [] "gherkin.feature_002.feature" OpenRaises);
      reflexivity.
Defined.

(** A tag after a comment and a blank line counts; a tag after the
    [Feature:] line does not. *)
Lemma passing_iff_first_content_line_witness :
  scan_passing (Yields (["# generated"; "   "] ++ ["@passing"; "Feature: x"])
                       false)
  = scan_passing (Yields ["@passing"; "Feature: x"] false)
  /\ bump (scan_passing (Yields ("Feature: x" :: ["@passing"]) false)) 0 = 0.
Proof.
  split.
  - apply (proj1 (proj2 (proj2 passing_iff_first_content_line))).
    intros l [<-|[<-|[]]]; [right | left]; reflexivity.
  - apply (proj2 (proj2 (proj2 passing_iff_first_content_line)));
      reflexivity.
Defined.

(** A directory with a passing, a failing, an untagged and an unreadable
    feature file, and a file the glob does not match. *)
Lemma progress_example :
  let d := [("gherkin.feature_001.feature",
             Yields ["# first"; ""; "  @passing  "; "Feature: a"] false);
            ("gherkin.feature_002.feature",
             Yields ["@failing"; "Feature: b"] false);
            ("gherkin.feature_003.feature",
             Yields ["Feature: c"; "@passing"] false);
            ("gherkin.feature_004.feature", OpenRaises);
            ("notes.feature", Yields ["@passing"] false)] in
  count_passing_tests d = (1, 4) /\ count_failing_features d = 1.
Proof. split; reflexivity. Qed.

(** A file whose tag is read before the undecodable part is reached leaves
    the loop by [break]: no exception is raised and the file is counted. *)
Lemma tag_before_decode_error :
  scan_passing (Yields ["@passing"] true) = Counted
  /\ raises_on_read (Yields ["@passing"] true) = false
  /\ raises_on_read (Yields ["# header"] true) = true.
Proof. repeat split. Qed.

End ProgressClaims.

(** * Properties of the policy gate *)

Section StringFacts.

Lemma append_nil_r (s : string) : (s ++ "")%string = s.
Proof. induction s as [|c s IH]; cbn; [reflexivity | now rewrite IH]. Qed.

Lemma append_assoc (s t u : string) :
  ((s ++ t) ++ u)%string = (s ++ (t ++ u))%string.
Proof. induction s as [|c s IH]; cbn; [reflexivity | now rewrite IH]. Qed.

Lemma snoc_append (cur : string) (c : ascii) (s : string) :
  (snoc cur c ++ s)%string = (cur ++ String c s)%string.
Proof. unfold snoc. rewrite append_assoc. reflexivity. Qed.

Lemma startswith_iff (s p : string) :
  startswith s p = true <-> exists post, s = (p ++ post)%string.
Proof.
  revert s. induction p as [|a p IH]; intros s; cbn [startswith].
  - split; [intros _; exists s; reflexivity | reflexivity].
  - destruct s as [|b s].
    + split; [discriminate | intros [post H]; discriminate].
    + rewrite andb_true_iff, Ascii.eqb_eq, IH. split.
      * intros [-> [post ->]]. exists post. reflexivity.
      * intros [post H]. cbn in H. injection H as -> ->.
        split; [reflexivity | exists post; reflexivity].
Qed.

Lemma endswith_iff (s p : string) :
  endswith s p = true <-> exists pre, s = (pre ++ p)%string.
Proof.
  induction s as [|c s IH]; cbn [endswith].
  - rewrite orb_false_r, String.eqb_eq. split.
    + intros <-. exists "". reflexivity.
    + intros [[|a pre] H]; cbn in H; [congruence | discriminate].
  - rewrite orb_true_iff, String.eqb_eq, IH. split.
    + intros [<- | [pre ->]].
      * exists "". reflexivity.
      * exists (String c pre). reflexivity.
    + intros [[|a pre] H]; cbn in H.
      * left. exact H.
      * injection H as -> ->. right. exists pre. reflexivity.
Qed.

Lemma contains_iff (s p : string) :
  contains s p = true <-> exists pre post, s = (pre ++ p ++ post)%string.
Proof.
  induction s as [|c s IH]; cbn [contains].
  - rewrite orb_false_r, startswith_iff. split.
    + intros [post H]. exists "", post. exact H.
    + intros [[|a pre] [post H]]; cbn in H; [|discriminate].
      exists post. exact H.
  - rewrite orb_true_iff, startswith_iff, IH. split.
    + intros [[post H] | [pre [post ->]]].
      * exists "", post. exact H.
      * exists (String c pre), post. reflexivity.
    + intros [[|a pre] [post H]]; cbn in H.
      * left. exists post. exact H.
      * injection H as -> ->. right. exists pre, post. reflexivity.
Qed.


End StringFacts.

Section ExtractorFacts.


Lemma basename_from_app (cur s t : string) :
  basename_from cur (s ++ t) = basename_from (basename_from cur s) t.
Proof.
  revert cur. induction s as [|c s IH]; intros cur; cbn; [reflexivity|].
  destruct (Ascii.eqb c "/"); apply IH.
Qed.

Lemma basename_from_no_slash (cur s : string) :
  contains s "/" = false -> basename_from cur s = (cur ++ s)%string.
Proof.
  revert cur. induction s as [|c s IH]; intros cur H.
  - cbn. now rewrite append_nil_r.
  - cbn [contains startswith] in H. apply orb_false_elim in H.
    destruct H as [H1 H2]. rewrite andb_true_r in H1.
    cbn [basename_from]. rewrite Ascii.eqb_sym, H1.
    rewrite IH by exact H2. apply snoc_append.
Qed.

Lemma basename_from_no_slash_result (cur s : string) :
  contains cur "/" = false -> contains (basename_from cur s) "/" = false.
Proof.
  revert cur. induction s as [|c s IH]; intros cur H; cbn [basename_from].
  - exact H.
  - destruct (Ascii.eqb c "/") eqn:E.
    + apply IH. reflexivity.
    + apply IH. destruct (contains (snoc cur c) "/") eqn:Hc; [|reflexivity].
      apply contains_iff in Hc. destruct Hc as [pre [post Hc]].
      exfalso. unfold snoc in Hc.
      assert (G : forall a b : string,
                 (a ++ String c "")%string = (b ++ "/" ++ post)%string ->
                 contains a "/" = false -> False).
      { clear -E. intros a. induction a as [|x a IHa]; intros b Hab Ha.
        - destruct b as [|y b]; cbn in Hab.
          + injection Hab as Hc _. subst c. discriminate.
          + injection Hab as _ Hab. destruct b; discriminate.
        - destruct b as [|y b]; cbn in Hab.
          + injection Hab as -> _. cbn in Ha. discriminate.
          + injection Hab as _ Hab. apply (IHa b Hab).
            cbn [contains] in Ha. apply orb_false_elim in Ha. tauto. }
      exact (G _ _ Hc H).
Qed.

(** The base name is what follows the last separator. *)
Lemma basename_split (tok : string) :
  exists dir,
    tok = (dir ++ basename tok)%string
    /\ contains (basename tok) "/" = false
    /\ (dir = "" \/ endswith dir "/" = true).
Proof.
  unfold basename.
  assert (G : forall s cur,
             exists dir, (cur ++ s)%string
                         = (dir ++ basename_from cur s)%string
                         /\ ((dir = "" /\ contains s "/" = false)
                             \/ endswith dir "/" = true)).
  { induction s as [|c s IH]; intros cur.
    - exists "". cbn. rewrite append_nil_r. auto.
    - cbn [basename_from]. destruct (Ascii.eqb c "/") eqn:E.
      + apply Ascii.eqb_eq in E. subst c.
        destruct (IH "") as [dir [H1 H2]]. cbn in H1.
        exists (cur ++ "/" ++ dir)%string. split.
        * rewrite !append_assoc. cbn. rewrite <- H1. reflexivity.
        * right. apply endswith_iff. destruct H2 as [[-> _] | H2].
          -- exists cur. now rewrite append_nil_r.
          -- apply endswith_iff in H2. destruct H2 as [pre ->].
             exists (cur ++ "/" ++ pre)%string. now rewrite !append_assoc.
      + destruct (IH (snoc cur c)) as [dir [H1 H2]].
        rewrite snoc_append in H1. exists dir. split; [exact H1|].
        destruct H2 as [[-> H2] | H2]; [left | right; exact H2].
        split; [reflexivity|]. cbn [contains startswith].
        rewrite Ascii.eqb_sym, E, H2. reflexivity. }
  destruct (G tok "") as [dir [H1 H2]]. exists dir. cbn in H1.
  split; [exact H1|]. split; [|tauto].
  apply basename_from_no_slash_result. reflexivity.
Qed.

(** A direct init path is a token that ends in [/init.sh]. *)
Lemma is_direct_init_path_iff (tok : string) :
  is_direct_init_path tok = true <->
  exists dir, tok = (dir ++ "/init.sh")%string.
Proof.
  unfold is_direct_init_path, init_name.
  rewrite andb_true_iff, String.eqb_eq. split.
  - intros [Hc Hb]. destruct (basename_split tok) as [dir [H1 [_ H3]]].
    rewrite Hb in H1. destruct H3 as [-> | H3].
    + cbn in H1. subst tok. discriminate.
    + apply endswith_iff in H3. destruct H3 as [pre ->].
      exists pre. rewrite H1, append_assoc. reflexivity.
  - intros [dir ->]. split.
    + apply contains_iff. exists dir, "init.sh". reflexivity.
    + unfold basename. rewrite basename_from_app. reflexivity.
Qed.

End ExtractorFacts.

Section TokenFacts.





Lemma nonempty_snoc (cur : string) (c : ascii) : nonempty (snoc cur c) = true.
Proof. destruct cur; reflexivity. Qed.



End TokenFacts.

Section ExtractorClaims.


End ExtractorClaims.

Section ValidatorFacts.


Lemma filter_nonempty_iff {A : Type} (f : A -> bool) (l : list A) :
  filter f l <> [] <-> exists x, In x l /\ f x = true.
Proof.
  split.
  - destruct (filter f l) as [|x r] eqn:E; [congruence|]. intros _.
    exists x. apply filter_In. rewrite E. left. reflexivity.
  - intros [x Hx] E. apply filter_In in Hx. rewrite E in Hx. exact Hx.
Qed.



Lemma validate_init_script_allowed (sub : string) :
  fst (validate_init_script sub) = true <->
  exists p rest,
    strip_env_prefix (tokenize sub) = p :: rest
    /\ is_direct_init_path p = true.
Proof.
  unfold validate_init_script.
  destruct (strip_env_prefix (tokenize sub)) as [|p rest].
  - split; [discriminate | intros [p [rest [H _]]]; discriminate].
  - destruct (is_direct_init_path p) eqn:E.
    + split; [intros _; exists p, rest; auto | reflexivity].
    + split.
      * destruct (mentions_init (p :: rest)); discriminate.
      * intros [p' [rest' [H H']]]. injection H as <- <-. congruence.
Qed.

End ValidatorFacts.

Section ValidatorClaims.



(** C4: [validate_init_script] allows if and only if the program token
    (after the environment prefix, before base-name reduction) is a path
    ending in exactly [/init.sh]; the tokens that follow are ordinary
    arguments and do not change the verdict; [bash init.sh] and
    [sh init.sh] are refused, the program token being the interpreter. *)
Theorem validate_init_script_spec :
  (forall sub : string,
      fst (validate_init_script sub) = true <->
      exists p rest dir,
        strip_env_prefix (tokenize sub) = p :: rest
        /\ p = (dir ++ "/init.sh")%string)
  /\ (forall (sub sub' p : string) (rest rest' : list string),
         strip_env_prefix (tokenize sub) = p :: rest ->
         strip_env_prefix (tokenize sub') = p :: rest' ->
         fst (validate_init_script sub) = fst (validate_init_script sub'))
  /\ (forall (sub interpreter : string) (rest : list string),
         strip_env_prefix (tokenize sub) = interpreter :: rest ->
         interpreter = "bash" \/ interpreter = "sh" ->
         fst (validate_init_script sub) = false)
  /\ validate_init_script "bash init.sh"
     = (false, "init.sh must be executed directly, not via an interpreter")
  /\ validate_init_script "sh init.sh"
     = (false, "init.sh must be executed directly, not via an interpreter")
  /\ validate_init_script "./init.sh" = (true, "")
  /\ validate_init_script "/absolute/path/init.sh" = (true, "")
  /\ validate_init_script "../relative/init.sh" = (true, "").
Proof.
  split; [|split; [|split; [|repeat split; vm_compute; reflexivity]]].
  - intros sub. rewrite validate_init_script_allowed. split.
    + intros [p [rest [H Hp]]]. apply is_direct_init_path_iff in Hp.
      destruct Hp as [dir ->]. exists (dir ++ "/init.sh")%string, rest, dir.
      auto.
    + intros [p [rest [dir [H ->]]]].
      exists (dir ++ "/init.sh")%string, rest. split; [exact H|].
      apply is_direct_init_path_iff. exists dir. reflexivity.
  - intros sub sub' p rest rest' H H'. unfold validate_init_script.
    rewrite H, H'. destruct (is_direct_init_path p); [reflexivity|].
    destruct (mentions_init (p :: rest)), (mentions_init (p :: rest'));
      reflexivity.
  - intros sub interpreter rest H Hi. unfold validate_init_script.
    rewrite H.
    assert (Hd : is_direct_init_path interpreter = false)
      by (destruct Hi as [-> | ->]; reflexivity).
    rewrite Hd. destruct (mentions_init (interpreter :: rest)); reflexivity.
Qed.

(** The interpreter rule at [bash ./init.sh --production]. *)
Lemma validate_init_script_spec_witness :
  fst (validate_init_script "bash ./init.sh --production") = false.
Proof.
  apply (proj1 (proj2 (proj2 validate_init_script_spec))
           "bash ./init.sh --production" "bash"
           ["./init.sh"; "--production"]).
  - reflexivity.
  - left. reflexivity.
Defined.

End ValidatorClaims.

Section EngineFacts.

Variable cfg : PolicyConfig.


Lemma append_nonempty_r (s t : string) : t <> "" -> (s ++ t)%string <> "".
Proof.
  intros Ht. destruct s as [|c s]; cbn; [exact Ht | discriminate].
Qed.

Lemma validate_chmod_args_reason (arguments : list string) :
  fst (validate_chmod_args arguments) = false ->
  snd (validate_chmod_args arguments) <> "".
Proof.
  unfold validate_chmod_args.
  destruct (existsb is_recursive_flag arguments); [discriminate|].
  destruct (filter is_exec_mode arguments) as [|m [|m' ms]];
    try discriminate.
  destruct (filter is_target arguments); discriminate.
Qed.

Lemma validate_init_script_reason (sub : string) :
  fst (validate_init_script sub) = false ->
  snd (validate_init_script sub) <> "".
Proof.
  unfold validate_init_script.
  destruct (strip_env_prefix (tokenize sub)) as [|p rest]; [discriminate|].
  destruct (is_direct_init_path p); [discriminate|].
  destruct (mentions_init (p :: rest)); discriminate.
Qed.

Lemma validate_pkill_reason (arguments : list string) :
  fst (validate_pkill cfg arguments) = false ->
  snd (validate_pkill cfg arguments) <> "".
Proof.
  unfold validate_pkill.
  destruct (existsb (contains (pkill_target arguments)) (dev_processes cfg));
    discriminate.
Qed.

Lemma of_validation_block (r : bool * string) :
  (fst r = false -> snd r <> "") ->
  verdict (of_validation r) = Block -> reason (of_validation r) <> "".
Proof.
  unfold of_validation. destruct r as [[|] why]; cbn; [discriminate|].
  intros H _. apply H. reflexivity.
Qed.

(** Every BLOCK contributed by a sub-command carries a reason. *)
Lemma decide_sub_block_reason (sub : string) :
  verdict (decide_sub cfg sub) = Block -> reason (decide_sub cfg sub) <> "".
Proof.
  unfold decide_sub.
  destruct (extract_invocation sub) as [inv|]; [|discriminate].
  destruct (negb (nonempty (base_name inv))); [discriminate|].
  destruct (validator_kind inv).
  - apply of_validation_block, validate_chmod_args_reason.
  - apply of_validation_block, validate_init_script_reason.
  - apply of_validation_block, validate_pkill_reason.
  - destruct (is_allowed cfg (base_name inv)); [discriminate|].
    intros _. cbn. apply append_nonempty_r. discriminate.
Qed.

(** A sub-command without a program is blocked. *)
Lemma decide_sub_no_program (sub : string) :
  extract_invocation sub = None
  \/ (exists inv, extract_invocation sub = Some inv /\ base_name inv = "") ->
  decide_sub cfg sub = block reason_no_command.
Proof.
  unfold decide_sub. intros [-> | [inv [-> Hb]]]; [reflexivity|].
  rewrite Hb. reflexivity.
Qed.

Lemma decide_all_allow_iff (subs : list string) :
  verdict (decide_all cfg subs) = Allow <->
  Forall (fun sub => verdict (decide_sub cfg sub) = Allow) subs.
Proof.
  induction subs as [|sub rest IH]; cbn [decide_all].
  - split; [constructor | reflexivity].
  - destruct (verdict (decide_sub cfg sub)) eqn:E.
    + rewrite IH. split.
      * intros H. constructor; assumption.
      * intros H. inversion H; assumption.
    + split; [congruence|]. intros H. inversion H; congruence.
Qed.

(** A BLOCK of the whole is the decision of the leftmost failing
    sub-command. *)
Lemma decide_all_first_block (subs : list string) :
  verdict (decide_all cfg subs) = Block ->
  exists before sub after,
    subs = before ++ sub :: after
    /\ Forall (fun s => verdict (decide_sub cfg s) = Allow) before
    /\ verdict (decide_sub cfg sub) = Block
    /\ decide_all cfg subs = decide_sub cfg sub.
Proof.
  induction subs as [|sub rest IH]; cbn [decide_all]; [discriminate|].
  destruct (verdict (decide_sub cfg sub)) eqn:E.
  - intros H. destruct (IH H) as [before [s [after [-> [H1 [H2 H3]]]]]].
    exists (sub :: before), s, after. repeat split; auto.
  - intros _. exists [], sub, rest. repeat split; auto.
Qed.

Lemma decide_all_block_reason (subs : list string) :
  verdict (decide_all cfg subs) = Block -> reason (decide_all cfg subs) <> "".
Proof.
  intros H. destruct (decide_all_first_block subs H)
    as [before [sub [after [_ [_ [Hb ->]]]]]].
  apply decide_sub_block_reason. exact Hb.
Qed.



End EngineFacts.

Section EngineClaims.




(** C6: a Bash request whose command field is missing or is not a string,
    whose command leaves no sub-command (operators and whitespace only),
    or one of whose sub-commands has no program token after the
    environment prefix is stripped, gets a BLOCK decision with a non-empty
    reason; the engine is a total function, so it returns this decision
    rather than raising. *)
Theorem malformed_input_blocked (cfg : PolicyConfig) (req : request) :
  tool_name req = "Bash" ->
  command req = Missing
  \/ command req = NotAString
  \/ (exists raw, command req = Text raw
                  /\ (split_commands raw = []
                      \/ Exists no_program (split_commands raw))) ->
  verdict (bash_security_hook cfg req) = Block
  /\ reason (bash_security_hook cfg req) <> "".
Proof.
  intros Ht H. unfold bash_security_hook. rewrite Ht. cbn [String.eqb
    Ascii.eqb Bool.eqb negb].
  destruct H as [-> | [-> | [raw [-> H]]]];
    [split; [reflexivity | discriminate] ..|].
  destruct H as [-> | H]; [split; [reflexivity | discriminate]|].
  destruct (split_commands raw) as [|s ss] eqn:E;
    [split; [reflexivity | discriminate]|].
  assert (B : verdict (decide_all cfg (s :: ss)) = Block).
  { destruct (verdict (decide_all cfg (s :: ss))) eqn:V; [|reflexivity].
    exfalso. apply decide_all_allow_iff in V.
    apply Exists_exists in H. destruct H as [sub [Hin Hn]].
    rewrite Forall_forall in V. specialize (V sub Hin).
    rewrite (decide_sub_no_program cfg sub Hn) in V. discriminate. }
  split; [exact B | apply decide_all_block_reason; exact B].
Qed.

(** The operators-only command, a bare environment assignment after an
    allowed command, and a request without a command. *)
Lemma malformed_input_blocked_witness :
  (verdict (bash_security_hook default_policy (bash_request " && ; || "))
   = Block
   /\ reason (bash_security_hook default_policy (bash_request " && ; || "))
      <> "")
  /\ (verdict (bash_security_hook default_policy (bash_request "ls; FOO=1"))
      = Block
      /\ reason (bash_security_hook default_policy
                   (bash_request "ls; FOO=1")) <> "")
  /\ (verdict (bash_security_hook default_policy
                 {| tool_name := "Bash"; command := Missing |}) = Block
      /\ reason (bash_security_hook default_policy
                   {| tool_name := "Bash"; command := Missing |}) <> "").
Proof.
  split; [|split].
  - apply malformed_input_blocked; [reflexivity|].
    right; right. exists " && ; || ". split; [reflexivity|].
    left. reflexivity.
  - apply malformed_input_blocked; [reflexivity|].
    right; right. exists "ls; FOO=1". split; [reflexivity|].
    right. apply Exists_cons_tl, Exists_cons_hd. left. reflexivity.
  - apply malformed_input_blocked; [reflexivity|]. left. reflexivity.
Defined.



End EngineClaims.

Section SplitterFacts.

Lemma kept_cons (a : string) (l : list string) :
  kept (a :: l) = keep1 a ++ kept l.
Proof.
  unfold kept, keep1. cbn [map filter].
  destruct (nonempty (strip a)); reflexivity.
Qed.

Lemma split_commands_kept (raw : string) :
  split_commands raw = kept (split_from None "" raw).
Proof. reflexivity. Qed.

(** A plain piece is scanned without a cut and leaves the quote tracker
    closed. *)
Lemma split_from_plain (s : string) :
  forall (q : option ascii) (cur t : string),
    plain_from q s = true ->
    split_from q cur (s ++ t) = split_from None (cur ++ s) t.
Proof.
  induction s as [|c s IH]; intros q cur t H.
  - destruct q; [discriminate|]. cbn [append]. now rewrite append_nil_r.
  - cbn [append]. destruct q as [q0|]; cbn [plain_from] in H.
    + cbn [split_from]. rewrite (IH _ _ _ H). now rewrite snoc_append.
    + destruct (is_quote c) eqn:Q.
      * cbn [split_from]. rewrite Q, (IH _ _ _ H). now rewrite snoc_append.
      * apply andb_prop in H. destruct H as [Ho H].
        unfold is_operator_char in Ho. apply negb_true_iff in Ho.
        apply orb_false_elim in Ho. destruct Ho as [Ho O3].
        apply orb_false_elim in Ho. destruct Ho as [O1 O2].
        cbn [split_from]. rewrite Q, O1, O2, O3, (IH _ _ _ H).
        now rewrite snoc_append.
Qed.

Lemma plain_head_not_pipe (c : ascii) (s : string) :
  plain (String c s) = true -> Ascii.eqb c "|" = false.
Proof.
  unfold plain. cbn [plain_from]. destruct (is_quote c) eqn:Q.
  - intros _. unfold is_quote in Q. apply orb_prop in Q.
    destruct Q as [Q|Q]; apply Ascii.eqb_eq in Q; subst c; reflexivity.
  - intros H. apply andb_prop in H. destruct H as [H _].
    unfold is_operator_char in H. apply negb_true_iff in H.
    apply orb_false_elim in H. destruct H as [H _].
    apply orb_false_elim in H. tauto.
Qed.

Lemma split_semi (cur x : string) :
  split_from None cur (String ";" x) = cur :: split_from None "" x.
Proof. reflexivity. Qed.

Lemma split_andand (cur x : string) :
  split_from None cur (String "&" (String "&" x))
  = cur :: split_from None "" x.
Proof. reflexivity. Qed.

Lemma split_oror (cur x : string) :
  split_from None cur (String "|" (String "|" x))
  = cur :: split_from None "" x.
Proof. reflexivity. Qed.

Lemma split_pipe_other (cur : string) (c : ascii) (x : string) :
  Ascii.eqb c "|" = false ->
  split_from None cur (String "|" (String c x))
  = cur :: split_from None "" (String c x).
Proof. intros H. cbn [split_from is_quote]. cbn. rewrite H. reflexivity. Qed.

Lemma split_pipe_end (cur : string) :
  split_from None cur "|" = [cur; ""].
Proof. reflexivity. Qed.

(** Splitting the text of a composite command gives back its pieces, up to
    the segments that trimming discards. *)
Lemma split_compose (rest : list (operator * string)) :
  Forall (fun s => plain s = true) (map snd rest) ->
  (forall first cur : string,
      plain first = true ->
      kept (split_from None cur (compose first rest))
      = kept ((cur ++ first)%string :: map snd rest))
  /\ (forall first cur : string,
         plain first = true ->
         kept (split_from None cur (String "|" (compose first rest)))
         = kept (cur :: first :: map snd rest)).
Proof.
  induction rest as [|[o s1] rest IH]; intros Hall.
  - assert (Q : forall first cur : string,
               plain first = true ->
               kept (split_from None cur first) = keep1 (cur ++ first)).
    { intros first cur Hp.
      rewrite <- (append_nil_r first) at 1.
      rewrite (split_from_plain first None cur "" Hp).
      cbn [split_from]. rewrite kept_cons. apply app_nil_r. }
    split; intros first cur Hp; cbn [compose map].
    + rewrite kept_cons. cbn [kept map filter]. rewrite app_nil_r.
      apply Q. exact Hp.
    + destruct first as [|c first]; [reflexivity|].
      rewrite split_pipe_other
        by (apply plain_head_not_pipe with first; exact Hp).
      rewrite !kept_cons, (Q _ "" Hp). cbn [kept map filter].
      rewrite app_nil_r. reflexivity.
  - cbn [map snd] in Hall. inversion Hall as [|? ? Hs1 Hrest]; subst.
    destruct (IH Hrest) as [Q P].
    assert (Q' : forall first cur : string,
               plain first = true ->
               kept (split_from None cur (compose first ((o, s1) :: rest)))
               = kept ((cur ++ first)%string :: map snd ((o, s1) :: rest))).
    { intros first cur Hp. cbn [compose map snd].
      rewrite (split_from_plain first None cur _ Hp).
      destruct o; cbn [operator_text append].
      - rewrite split_andand, !kept_cons, (Q _ "" Hs1), kept_cons.
        reflexivity.
      - rewrite split_oror, !kept_cons, (Q _ "" Hs1), kept_cons.
        reflexivity.
      - rewrite (P _ _ Hs1), !kept_cons. reflexivity.
      - rewrite split_semi, !kept_cons, (Q _ "" Hs1), kept_cons.
        reflexivity. }
    split; [exact Q'|].
    intros [|c first] cur Hp.
    + cbn [compose map snd append].
      destruct o; cbn [operator_text append].
      * rewrite split_pipe_other by reflexivity.
        rewrite split_andand, !kept_cons, (Q _ "" Hs1), kept_cons.
        reflexivity.
      * rewrite split_oror, !kept_cons, (P _ "" Hs1), !kept_cons.
        reflexivity.
      * rewrite split_oror, !kept_cons, (Q _ "" Hs1), kept_cons.
        reflexivity.
      * rewrite split_pipe_other by reflexivity.
        rewrite split_semi, !kept_cons, (Q _ "" Hs1), kept_cons.
        reflexivity.
    + change (compose (String c first) ((o, s1) :: rest))
        with (String c (first ++ operator_text o ++ compose s1 rest)).
      rewrite split_pipe_other
        by (apply plain_head_not_pipe with first; exact Hp).
      change (String c (first ++ operator_text o ++ compose s1 rest))
        with (compose (String c first) ((o, s1) :: rest)).
      rewrite kept_cons, (Q' _ "" Hp). cbn [map snd]. rewrite !kept_cons.
      reflexivity.
Qed.

Lemma kept_all (pieces : list string) :
  Forall (fun s => nonempty (strip s) = true) pieces ->
  kept pieces = map strip pieces.
Proof.
  induction 1 as [|s l H _ IH]; [reflexivity|].
  rewrite kept_cons, IH. unfold keep1. rewrite H. reflexivity.
Qed.

End SplitterFacts.

Section CompositionClaims.

(** C1: for a raw command composed of sub-commands joined at top level by
    [&&], [||], [|] or [;] (each sub-command non-blank, with its quotes
    closed and no operator character outside them), the engine splits the
    text back into these sub-commands, decides each on its own, and returns
    ALLOW if and only if every sub-command passes its validator; a BLOCK is
    the decision, reason included, of the leftmost failing sub-command. *)
Theorem hook_all_or_first_block (cfg : PolicyConfig) (first : string)
        (rest : list (operator * string)) :
  Forall (fun s => plain s = true /\ nonempty (strip s) = true)
         (first :: map snd rest) ->
  let pieces := map strip (first :: map snd rest) in
  let d := bash_security_hook cfg (bash_request (compose first rest)) in
  split_commands (compose first rest) = pieces
  /\ (verdict d = Allow <->
      Forall (fun s => verdict (decide_sub cfg s) = Allow) pieces)
  /\ (verdict d = Block ->
      exists before s after,
        pieces = before ++ s :: after
        /\ Forall (fun s' => verdict (decide_sub cfg s') = Allow) before
        /\ verdict (decide_sub cfg s) = Block
        /\ d = decide_sub cfg s).
Proof.
  intros Hall. cbv zeta.
  assert (Hsplit : split_commands (compose first rest)
                   = map strip (first :: map snd rest)).
  { rewrite split_commands_kept.
    inversion Hall as [|? ? [Hp Hn] Hrest]; subst.
    assert (Hplain : Forall (fun s => plain s = true) (map snd rest)).
    { apply Forall_impl with (2 := Hrest). tauto. }
    rewrite (proj1 (split_compose rest Hplain) first "" Hp).
    apply kept_all. apply Forall_impl with (2 := Hall). tauto. }
  assert (Hd : bash_security_hook cfg (bash_request (compose first rest))
               = decide_all cfg (map strip (first :: map snd rest))).
  { unfold bash_security_hook, bash_request.
    cbn [tool_name command String.eqb Ascii.eqb Bool.eqb negb].
    rewrite Hsplit. reflexivity. }
  rewrite Hd. split; [exact Hsplit|]. split.
  - apply decide_all_allow_iff.
  - apply decide_all_first_block.
Qed.

(** The rule at [chmod +x init.sh && ./init.sh]. *)
Lemma hook_all_or_first_block_witness :
  verdict (bash_security_hook default_policy
             (bash_request "chmod +x init.sh && ./init.sh")) = Allow.
Proof.
  assert (Hp : Forall (fun s => plain s = true /\ nonempty (strip s) = true)
                      ("chmod +x init.sh "
                       :: map snd [(AndAnd, " ./init.sh")]))
    by (repeat constructor).
  apply (proj2 (proj1 (proj2
           (hook_all_or_first_block default_policy "chmod +x init.sh "
              [(AndAnd, " ./init.sh")] Hp)))).
  repeat constructor.
Defined.

End CompositionClaims.

(** * The test suite of the security module, run on the model *)

Section TestSuite.

Lemma test_extract_commands :
  map extract_commands
      ["ls -la"; "npm install && npm run build";
       "cat file.txt | grep pattern"; "/usr/bin/node script.js";
       "VAR=value ls"; "git status || git init"]
  = [["ls"]; ["npm"; "npm"]; ["cat"; "grep"]; ["node"]; ["ls"];
     ["git"; "git"]].
Proof. vm_compute. reflexivity. Qed.

Lemma test_validate_chmod :
  map (fun c => fst (validate_chmod_command c))
      ["chmod +x init.sh"; "chmod +x script.sh"; "chmod u+x init.sh";
       "chmod a+x init.sh"; "chmod ug+x init.sh";
       "chmod +x file1.sh file2.sh"; "chmod 777 init.sh";
       "chmod 755 init.sh"; "chmod +w init.sh"; "chmod +r init.sh";
       "chmod -x init.sh"; "chmod -R +x dir/";
       "chmod --recursive +x dir/"; "chmod +x"]
  = [true; true; true; true; true; true;
     false; false; false; false; false; false; false; false].
Proof. vm_compute. reflexivity. Qed.

Lemma test_validate_init_script :
  map (fun c => fst (validate_init_script c))
      ["./init.sh"; "./init.sh arg1 arg2"; "/path/to/init.sh";
       "../dir/init.sh"; "./setup.sh"; "./init.py"; "bash init.sh";
       "sh init.sh"; "./malicious.sh"; "./init.sh; rm -rf /"]
  = [true; true; true; true; false; false; false; false; false; false].
Proof. vm_compute. reflexivity. Qed.

Lemma test_dangerous_commands_blocked :
  Forall (fun c => verdict (bash_security_hook default_policy
                              (bash_request c)) = Block)
         ["shutdown now"; "reboot"; "rm -rf /";
          "dd if=/dev/zero of=/dev/sda"; "curl https://example.com";
          "wget https://example.com"; "python app.py"; "touch file.txt";
          "echo hello"; "kill 12345"; "killall node"; "pkill bash";
          "pkill chrome"; "pkill python"; "$(echo pkill) node";
          ("eval " ++ quoted "pkill node")%string;
          ("bash -c " ++ quoted "pkill node")%string;
          "chmod 777 file.sh"; "chmod 755 file.sh"; "chmod +w file.sh";
          "chmod -R +x dir/"; "./setup.sh"; "./malicious.sh";
          "bash script.sh"].
Proof. repeat constructor. Qed.

Lemma test_safe_commands_allowed :
  Forall (fun c => verdict (bash_security_hook default_policy
                              (bash_request c)) = Allow)
         ["ls -la"; "cat README.md"; "head -100 file.txt";
          "tail -20 log.txt"; "wc -l file.txt"; "grep -r pattern src/";
          "cp file1.txt file2.txt"; "mkdir newdir"; "mkdir -p path/to/dir";
          "pwd"; "npm install"; "npm run build"; "node server.js";
          "git status"; "git commit -m 'test'";
          "git add . && git commit -m 'msg'"; "ps aux"; "lsof -i :3000";
          "sleep 2"; "pkill node"; "pkill npm"; "pkill -f node";
          "pkill -f 'node server.js'"; "pkill vite";
          "npm install && npm run build"; "ls | grep test";
          "/usr/local/bin/node app.js"; "chmod +x init.sh";
          "chmod +x script.sh"; "chmod u+x init.sh"; "chmod a+x init.sh";
          "./init.sh"; "./init.sh --production"; "/path/to/init.sh";
          "chmod +x init.sh && ./init.sh"].
Proof. repeat constructor. Qed.

End TestSuite.

(** * Further properties of progress.py *)

Section CountingFacts.

Lemma passing_counted_iff (f : file_read) :
  is_counted (scan_passing f) = first_content_is_passing f.
Proof.
  unfold first_content_is_passing.
  destruct (is_counted (scan_passing f)) eqn:C.
  - assert (H : scan_passing f = Counted)
      by (destruct (scan_passing f); easy).
    apply scan_passing_counted in H. destruct H as [l [-> H]]. now symmetry.
  - destruct (first_content_line f) as [l|] eqn:L; [|reflexivity].
    destruct (startswith (strip l) "@passing") eqn:P; [|reflexivity].
    assert (H : scan_passing f = Counted)
      by (apply scan_passing_counted; exists l; auto).
    rewrite H in C. discriminate.
Qed.

Lemma failing_counted_iff (f : file_read) :
  is_counted (scan_failing f) = first_content_is_failing f.
Proof.
  unfold first_content_is_failing.
  destruct (is_counted (scan_failing f)) eqn:C.
  - assert (H : scan_failing f = Counted)
      by (destruct (scan_failing f); easy).
    apply scan_failing_counted in H. destruct H as [l [-> H]]. now symmetry.
  - destruct (first_content_line f) as [l|] eqn:L; [|reflexivity].
    destruct (startswith (strip l) "@failing") eqn:P; [|reflexivity].
    assert (H : scan_failing f = Counted)
      by (apply scan_failing_counted; exists l; auto).
    rewrite H in C. discriminate.
Qed.

Lemma first_content_tags_exclusive (f : file_read) :
  first_content_is_passing f && first_content_is_failing f = false.
Proof.
  rewrite <- passing_counted_iff, <- failing_counted_iff.
  apply scans_exclusive.
Qed.

Lemma passing_total (d : project_dir) :
  fst (count_passing_tests d)
  = List.length (filter (fun e => first_content_is_passing (snd e)) (glob d))
  /\ snd (count_passing_tests d) = List.length (glob d).
Proof.
  rewrite count_passing_tests_eq. cbn [fst snd]. split; [|reflexivity].
  f_equal. apply filter_ext. intros e. apply passing_counted_iff.
Qed.

Lemma failing_total (d : project_dir) :
  count_failing_features d
  = List.length (filter (fun e => first_content_is_failing (snd e)) (glob d)).
Proof.
  rewrite count_failing_features_eq.
  f_equal. apply filter_ext. intros e. apply failing_counted_iff.
Qed.

Lemma pair_eta (x : nat * nat) : x = (fst x, snd x).
Proof. destruct x; reflexivity. Qed.

Lemma Permutation_filter_keep {A : Type} (f : A -> bool) (l l' : list A) :
  Permutation l l' -> Permutation (filter f l) (filter f l').
Proof.
  induction 1 as [|x l l' _ IH|x y l|l l' l'' _ IH1 _ IH2]; cbn [filter].
  - constructor.
  - destruct (f x); [constructor|]; exact IH.
  - destruct (f x), (f y); try apply Permutation_refl. apply perm_swap.
  - eapply Permutation_trans; eassumption.
Qed.

Lemma glob_insert (d1 d2 : project_dir) (name : string) (f : file_read) :
  glob (d1 ++ (name, f) :: d2)
  = glob d1 ++ (if matches_glob name then [(name, f)] else []) ++ glob d2.
Proof.
  rewrite glob_app. f_equal. unfold glob. cbn [filter fst].
  destruct (matches_glob name); reflexivity.
Qed.

End CountingFacts.

Section CountingExtras.

(** X1: [count_failing_features] returns the number of globbed files whose
    first content line starts with [@failing]; it is at most the number of
    globbed files, and a file whose read raises is not among the counted. *)
Theorem count_failing_features_counts (d : project_dir) :
  count_failing_features d
  = List.length (filter (fun e => first_content_is_failing (snd e)) (glob d))
  /\ count_failing_features d
     + List.length
         (filter (fun e => match scan_failing (snd e) with
                           | Raised => true
                           | _ => false
                           end) (glob d))
     <= List.length (glob d).
Proof.
  split; [apply failing_total|].
  rewrite count_failing_features_eq. apply disjoint_filters_length.
  intros e. destruct (scan_failing (snd e)); reflexivity.
Qed.

(** X2: the counts do not depend on the order in which the directory lists
    its entries. *)
Theorem counts_order_independent (d d' : project_dir) :
  Permutation d d' ->
  count_passing_tests d' = count_passing_tests d
  /\ count_failing_features d' = count_failing_features d.
Proof.
  intros H. rewrite !count_passing_tests_eq, !count_failing_features_eq.
  assert (G : Permutation (glob d) (glob d'))
    by (apply Permutation_filter_keep; exact H).
  split.
  - f_equal; symmetry; apply Permutation_length;
      [apply Permutation_filter_keep|]; exact G.
  - symmetry. apply Permutation_length, Permutation_filter_keep. exact G.
Qed.

Lemma counts_order_independent_witness :
  count_passing_tests
    [("gherkin.feature_2.feature", Yields ["@failing"] false);
     ("gherkin.feature_1.feature", Yields ["@passing"] false)]
  = count_passing_tests
      [("gherkin.feature_1.feature", Yields ["@passing"] false);
       ("gherkin.feature_2.feature", Yields ["@failing"] false)]
  /\ count_failing_features
       [("gherkin.feature_2.feature", Yields ["@failing"] false);
        ("gherkin.feature_1.feature", Yields ["@passing"] false)]
     = count_failing_features
         [("gherkin.feature_1.feature", Yields ["@passing"] false);
          ("gherkin.feature_2.feature", Yields ["@failing"] false)].
Proof.
  apply counts_order_independent. apply perm_swap.
Defined.

(** X3: an entry whose name the glob does not match changes neither
    count, whatever it holds. *)
Theorem unmatched_entry_ignored (d1 d2 : project_dir) (name : string)
        (f : file_read) :
  matches_glob name = false ->
  count_passing_tests (d1 ++ (name, f) :: d2) = count_passing_tests (d1 ++ d2)
  /\ count_failing_features (d1 ++ (name, f) :: d2)
     = count_failing_features (d1 ++ d2).
Proof.
  intros H. rewrite !count_passing_tests_eq, !count_failing_features_eq.
  rewrite glob_insert, H, glob_app. split; reflexivity.
Qed.

Lemma unmatched_entry_ignored_witness :
  count_passing_tests
    ([("gherkin.feature_1.feature", Yields ["@passing"] false)]
     ++ ("feature_2.feature", Yields ["@passing"] false) :: [])
  = count_passing_tests
      ([("gherkin.feature_1.feature", Yields ["@passing"] false)] ++ [])
  /\ count_failing_features
       ([("gherkin.feature_1.feature", Yields ["@passing"] false)]
        ++ ("feature_2.feature", Yields ["@passing"] false) :: [])
     = count_failing_features
         ([("gherkin.feature_1.feature", Yields ["@passing"] false)] ++ []).
Proof.
  apply unmatched_entry_ignored. reflexivity.
Defined.

(** X4: the counts of a directory listing made of two parts are the sums
    of the counts of the parts. *)
Theorem counts_additive (d1 d2 : project_dir) :
  count_passing_tests (d1 ++ d2)
  = (fst (count_passing_tests d1) + fst (count_passing_tests d2),
     snd (count_passing_tests d1) + snd (count_passing_tests d2))
  /\ count_failing_features (d1 ++ d2)
     = count_failing_features d1 + count_failing_features d2.
Proof.
  rewrite !count_passing_tests_eq, !count_failing_features_eq.
  rewrite glob_app, !filter_app, !length_app. split; reflexivity.
Qed.

(** X5: every globbed file is in exactly one of three classes: counted as
    passing, counted as failing, or untagged (no content line is read, or
    the first content line starts with neither tag); so total is the sum
    of passing, failing and the number of untagged files. *)
Theorem total_is_passing_failing_untagged (d : project_dir) :
  snd (count_passing_tests d)
  = fst (count_passing_tests d) + count_failing_features d
    + List.length (filter (fun e => is_untagged (snd e)) (glob d)).
Proof.
  destruct (passing_total d) as [-> ->]. rewrite failing_total.
  induction (glob d) as [|e l IH]; [reflexivity|].
  cbn [filter List.length]. unfold is_untagged at 1.
  pose proof (first_content_tags_exclusive (snd e)) as X.
  destruct (first_content_is_passing (snd e)),
           (first_content_is_failing (snd e));
    cbn [negb andb List.length] in *; try discriminate; lia.
Qed.

(** X6: when a feature file whose first content line starts with
    [@failing] is replaced by one whose first content line starts with
    [@passing], passing grows by one, failing shrinks by one and total
    stays. *)
Theorem retag_moves_one (d1 d2 : project_dir) (name : string)
        (f f' : file_read) :
  matches_glob name = true ->
  first_content_is_failing f = true ->
  first_content_is_passing f' = true ->
  count_passing_tests (d1 ++ (name, f') :: d2)
  = (S (fst (count_passing_tests (d1 ++ (name, f) :: d2))),
     snd (count_passing_tests (d1 ++ (name, f) :: d2)))
  /\ S (count_failing_features (d1 ++ (name, f') :: d2))
     = count_failing_features (d1 ++ (name, f) :: d2).
Proof.
  intros Hm Hf Hp'.
  assert (Hp : first_content_is_passing f = false).
  { pose proof (first_content_tags_exclusive f) as X. rewrite Hf in X.
    now rewrite andb_true_r in X. }
  assert (Hf' : first_content_is_failing f' = false).
  { pose proof (first_content_tags_exclusive f') as X. now rewrite Hp' in X. }
  rewrite (pair_eta (count_passing_tests (d1 ++ (name, f') :: d2))).
  destruct (passing_total (d1 ++ (name, f') :: d2)) as [-> ->].
  destruct (passing_total (d1 ++ (name, f) :: d2)) as [-> ->].
  rewrite !failing_total, !glob_insert, Hm, !filter_app.
  cbn [filter snd]. rewrite Hp, Hp', Hf, Hf', !length_app.
  cbn [List.length app]. split; [f_equal|]; lia.
Qed.

Lemma retag_moves_one_witness :
  count_passing_tests
    ([] ++ ("gherkin.feature_7.feature", Yields ["@passing"; "Feature: x"] false)
        :: [])
  = (S (fst (count_passing_tests
               ([] ++ ("gherkin.feature_7.feature",
                       Yields ["@failing"; "Feature: x"] false) :: []))),
     snd (count_passing_tests
            ([] ++ ("gherkin.feature_7.feature",
                    Yields ["@failing"; "Feature: x"] false) :: [])))
  /\ S (count_failing_features
          ([] ++ ("gherkin.feature_7.feature",
                  Yields ["@passing"; "Feature: x"] false) :: []))
     = count_failing_features
         ([] ++ ("gherkin.feature_7.feature",
                 Yields ["@failing"; "Feature: x"] false) :: []).
Proof.
  apply retag_moves_one; reflexivity.
Defined.

End CountingExtras.

Section StripFacts.

Lemma lstrip_spaces (ws s : string) :
  all_chars is_space ws = true -> lstrip (ws ++ s) = lstrip s.
Proof.
  induction ws as [|c ws IH]; intros H; [reflexivity|].
  cbn [all_chars] in H. apply andb_prop in H. destruct H as [Hc H].
  cbn [append lstrip]. rewrite Hc. apply IH. exact H.
Qed.

Lemma rstrip_spaces_only (ws : string) :
  all_chars is_space ws = true -> rstrip ws = "".
Proof.
  induction ws as [|c ws IH]; intros H; [reflexivity|].
  cbn [all_chars] in H. apply andb_prop in H. destruct H as [Hc H].
  cbn [rstrip]. rewrite (IH H), Hc. reflexivity.
Qed.

Lemma rstrip_app_spaces (s ws : string) :
  all_chars is_space ws = true -> rstrip (s ++ ws) = rstrip s.
Proof.
  intros H. induction s as [|c s IH].
  - cbn [append]. apply rstrip_spaces_only. exact H.
  - cbn [append rstrip]. rewrite IH. reflexivity.
Qed.

Lemma strip_app_spaces (s ws : string) :
  all_chars is_space ws = true -> strip (s ++ ws) = strip s.
Proof.
  intros H. unfold strip. induction s as [|c s IH].
  - cbn [append]. rewrite <- (append_nil_r ws) at 1.
    rewrite (lstrip_spaces ws "" H). reflexivity.
  - cbn [append lstrip]. destruct (is_space c); [exact IH|].
    apply (rstrip_app_spaces (String c s) ws H).
Qed.

(** Whitespace around a line does not survive [strip]. *)
Lemma strip_padded (l l' : string) : padded l l' -> strip l' = strip l.
Proof.
  intros [before [after [Hb [Ha ->]]]]. unfold strip at 1.
  rewrite (lstrip_spaces before _ Hb). fold (strip (l ++ after)).
  apply strip_app_spaces. exact Ha.
Qed.

Lemma rstrip_cons_nonspace (c : ascii) (s : string) :
  is_space c = false -> rstrip (String c s) = String c (rstrip s).
Proof.
  intros H. cbn [rstrip]. destruct (rstrip s); [rewrite H|]; reflexivity.
Qed.

Lemma rstrip_app_nonspace (p t : string) :
  all_chars (fun c => negb (is_space c)) p = true ->
  rstrip (p ++ t) = (p ++ rstrip t)%string.
Proof.
  induction p as [|c p IH]; intros H; [reflexivity|].
  cbn [all_chars] in H. apply andb_prop in H. destruct H as [Hc H].
  apply negb_true_iff in Hc. cbn [append].
  rewrite (rstrip_cons_nonspace c _ Hc), (IH H). reflexivity.
Qed.

(** A line that is whitespace, then a word free of whitespace, then
    anything, strips to a text that starts with the word. *)
Lemma strip_starts_with_word (ws word suffix : string) (c : ascii)
      (word' : string) :
  word = String c word' ->
  all_chars is_space ws = true ->
  all_chars (fun c => negb (is_space c)) word = true ->
  startswith (strip (ws ++ word ++ suffix)) word = true.
Proof.
  intros Hw Hws Hword. unfold strip. rewrite (lstrip_spaces ws _ Hws).
  assert (Hl : lstrip (word ++ suffix) = (word ++ suffix)%string).
  { subst word. cbn [all_chars] in Hword. apply andb_prop in Hword.
    destruct Hword as [Hc _]. apply negb_true_iff in Hc.
    cbn [append lstrip]. rewrite Hc. reflexivity. }
  rewrite Hl, (rstrip_app_nonspace word suffix Hword).
  apply startswith_iff. exists (rstrip suffix). reflexivity.
Qed.

End StripFacts.

Section ReadingExtras.



(** X8: whitespace added before or after the lines of a file (indentation,
    trailing blanks, line ends) changes neither scan. *)
Theorem padding_is_ignored (lines lines' : list string) (e : bool) :
  Forall2 padded lines lines' ->
  scan_passing (Yields lines' e) = scan_passing (Yields lines e)
  /\ scan_failing (Yields lines' e) = scan_failing (Yields lines e).
Proof.
  intros H. cbn [scan_passing scan_failing].
  induction H as [|l l' lines lines' Hp _ [IH1 IH2]];
    [split; reflexivity|].
  cbn [scan_passing_lines scan_failing_lines].
  rewrite (strip_padded l l' Hp), IH1, IH2. split; reflexivity.
Qed.

Lemma padding_is_ignored_witness :
  scan_passing (Yields ["  @passing "] false)
  = scan_passing (Yields ["@passing"] false)
  /\ scan_failing (Yields ["  @passing "] false)
     = scan_failing (Yields ["@passing"] false).
Proof.
  apply padding_is_ignored. constructor; [|constructor].
  exists "  ", " ". repeat split.
Defined.

(** X9: the tags are matched as prefixes: a first line that is a tag
    followed by anything on the same line, indented or not, is counted for
    that tag. *)
Theorem tag_is_prefix_match (indent suffix : string) (rest : list string)
        (e : bool) :
  all_chars is_space indent = true ->
  scan_passing (Yields ((indent ++ "@passing" ++ suffix)%string :: rest) e)
  = Counted
  /\ scan_failing (Yields ((indent ++ "@failing" ++ suffix)%string :: rest) e)
     = Counted.
Proof.
  intros H. cbn [scan_passing scan_failing scan_passing_lines
                 scan_failing_lines].
  rewrite (strip_starts_with_word indent "@passing" suffix "@" "passing"
             eq_refl H eq_refl).
  rewrite (strip_starts_with_word indent "@failing" suffix "@" "failing"
             eq_refl H eq_refl).
  split; reflexivity.
Qed.

Lemma tag_is_prefix_match_witness :
  scan_passing (Yields ((" " ++ "@passing" ++ "_once @slow")%string
                        :: ["Feature: a"]) false) = Counted
  /\ scan_failing (Yields ((" " ++ "@failing" ++ "_once @slow")%string
                           :: ["Feature: a"]) false) = Counted.
Proof.
  apply tag_is_prefix_match. reflexivity.
Defined.

End ReadingExtras.

Section GlobFacts.

Lemma substring_skip (p q : string) (m : nat) :
  substring (String.length p) m (p ++ q) = substring 0 m q.
Proof.
  induction p as [|c p IH]; [reflexivity|]. cbn [String.length append].
  destruct m; cbn [substring]; exact IH || apply IH.
Qed.

Lemma substring_all (s : string) : substring 0 (String.length s) s = s.
Proof.
  induction s as [|c s IH]; [reflexivity|].
  cbn [String.length substring]. now rewrite IH.
Qed.

Lemma length_append (p q : string) :
  String.length (p ++ q) = String.length p + String.length q.
Proof. induction p as [|c p IH]; cbn; [reflexivity | now rewrite IH]. Qed.

End GlobFacts.

Section GlobExtras.

(** X10: the glob selects exactly the names made of [gherkin.feature_],
    then any text (the empty one too), then [.feature]. *)
Theorem matches_glob_iff (name : string) :
  matches_glob name = true <->
  exists middle,
    name = ("gherkin.feature_" ++ middle ++ ".feature")%string.
Proof.
  unfold matches_glob, glob_prefix, glob_suffix.
  rewrite andb_true_iff, startswith_iff. split.
  - intros [[post ->] H].
    rewrite length_append, Nat.add_comm, Nat.add_sub in H.
    rewrite substring_skip, substring_all in H.
    apply endswith_iff in H. destruct H as [middle ->].
    exists middle. reflexivity.
  - intros [middle ->]. split; [eexists; reflexivity|].
    rewrite length_append, Nat.add_comm, Nat.add_sub.
    rewrite substring_skip, substring_all.
    apply endswith_iff. exists middle. reflexivity.
Qed.

End GlobExtras.

Section PrintingFacts.

Lemma split_at_colon (s1 s2 r1 r2 : string) :
  no_colon s1 = true -> no_colon s2 = true ->
  (s1 ++ String ":" r1)%string = (s2 ++ String ":" r2)%string ->
  s1 = s2 /\ r1 = r2.
Proof.
  unfold no_colon. revert s2.
  induction s1 as [|a s1 IH]; intros [|b s2] H1 H2 E; cbn in E.
  - injection E as ->. auto.
  - injection E as <- _. cbn in H2. discriminate.
  - injection E as -> _. cbn in H1. discriminate.
  - injection E as -> E. cbn [all_chars] in H1, H2.
    apply andb_prop in H1, H2.
    destruct (IH s2 (proj2 H1) (proj2 H2) E) as [-> ->]. auto.
Qed.

Lemma uint_digits_no_colon (d : Decimal.uint) :
  no_colon (NilEmpty.string_of_uint d) = true.
Proof. induction d; cbn; auto. Qed.

Lemma py_str_no_colon (n : Z) : no_colon (py_str n) = true.
Proof.
  unfold py_str. destruct (Z.to_int n) as [d|d]; cbn [NilZero.string_of_int].
  - destruct d; try reflexivity; apply uint_digits_no_colon.
  - change (no_colon (NilZero.string_of_uint d) = true).
    destruct d; try reflexivity; apply uint_digits_no_colon.
Qed.

(** [str] is one to one on the integers. *)
Lemma py_str_inj (n m : Z) : py_str n = py_str m -> n = m.
Proof.
  unfold py_str. intros E.
  assert (N : forall z, Z.to_int z <> Decimal.Pos Decimal.Nil
                        /\ Z.to_int z <> Decimal.Neg Decimal.Nil).
  { intros [|p|p]; cbn; split; try discriminate;
      intros H; injection H as H;
      exact (DecimalPos.Unsigned.to_uint_nonnil p H). }
  apply DecimalZ.to_int_inj.
  assert (S1 := NilZero.isi (Z.to_int n) (proj1 (N n)) (proj2 (N n))).
  assert (S2 := NilZero.isi (Z.to_int m) (proj1 (N m)) (proj2 (N m))).
  rewrite E in S1. congruence.
Qed.

End PrintingFacts.

Section PrintingExtras.

(** X11: [print_progress_summary] never raises: it divides only when total
    is positive.  Without a globbed file it prints the line that says no
    feature file was created yet; otherwise it prints one progress line
    with the two counts of [count_passing_tests], and the quotient it
    formats has a positive divisor and is at most one. *)
Theorem print_progress_summary_returns
        (format_percentage : nat * nat -> string) (d : project_dir) :
  (forall e : exn, print_progress_summary format_percentage d <> Raises e)
  /\ (glob d = [] ->
      print_progress_summary format_percentage d
      = Returns [no_features_line])
  /\ (glob d <> [] ->
      print_progress_summary format_percentage d
      = Returns [progress_line format_percentage
                   (fst (count_passing_tests d))
                   (snd (count_passing_tests d))
                   (fst (count_passing_tests d),
                    snd (count_passing_tests d))]
      /\ fst (count_passing_tests d) <= snd (count_passing_tests d)
      /\ 0 < snd (count_passing_tests d)).
Proof.
  unfold print_progress_summary. rewrite count_passing_tests_eq.
  cbn [fst snd]. unfold truediv.
  destruct (glob d) as [|x l] eqn:G.
  - cbn. repeat split; congruence.
  - cbn [List.length Nat.ltb Nat.leb Nat.eqb].
    repeat split; try congruence; try lia.
    apply (filter_length_le _ (x :: l)).
Qed.

(** The printed texts at a session and at a directory. *)
Lemma printing_example :
  print_session_header 12 false
  = [String (ascii_of_nat 10)
       "======================================================================";
     "  SESSION 12: CODING AGENT";
     "======================================================================";
     ""]
  /\ py_str (-3) = "-3"
  /\ print_progress_summary (fun _ => "50.0")
       [("gherkin.feature_1.feature", Yields ["@passing"] false);
        ("gherkin.feature_2.feature", Yields ["@failing"] false)]
     = Returns [String (ascii_of_nat 10)
                  "Progress: 1/2 feature files passing (50.0%)"].
Proof. repeat split. Qed.

(** X12: the header tells the session: two calls of
    [print_session_header] print the same text only when the session
    number and the session kind are the same. *)
Theorem print_session_header_inj (n m : Z) (a b : bool) :
  print_session_header n a = print_session_header m b ->
  n = m /\ a = b.
Proof.
  unfold print_session_header. intros H.
  injection H as H.
  apply split_at_colon in H; [|apply py_str_no_colon ..].
  destruct H as [H1 H2]. split; [apply py_str_inj; exact H1|].
  destruct a, b; [reflexivity | discriminate | discriminate | reflexivity].
Qed.

Lemma print_session_header_inj_witness :
  (3 = 3)%Z /\ true = true.
Proof.
  apply (print_session_header_inj 3 3 true true). reflexivity.
Defined.

End PrintingExtras.
